(** * Shallow embedding of the distillery projection engine

    Source: [distillery_model/core/model.py], class [DistilleryModel].

    Python floats are modelled as exact rationals [Q].  Python's [/] raises
    [ZeroDivisionError] on a zero divisor; the embedding returns [None]
    there.  Python's [min(a, b)] returns [a] unless [b < a]. *)

From Stdlib Require Import Ascii String QArith Qround Qminmax Qpower Lqa ZArith List Lia.
Import ListNotations.
Open Scope Q_scope.

(** ** Numeric helpers mirroring Python semantics *)

Definition Qltb (a b : Q) : bool := negb (Qle_bool b a).

(** Python's built-in [min] on two arguments. *)
Definition py_min (a b : Q) : Q := if Qltb b a then b else a.

(** Python's true division: raises on a zero divisor. *)
Definition py_div (a b : Q) : option Q :=
  if Qeq_bool b 0 then None else Some (a / b).

Definition obind {A B} (o : option A) (f : A -> option B) : option B :=
  match o with Some a => f a | None => None end.

Notation "x <- c ;; k" := (obind c (fun x => k))
  (at level 61, c at next level, right associativity).

(** Python list indexing [l[i]], including negative indices; [None] is
    [IndexError]. *)
Definition py_list_get {A} (l : list A) (i : Z) : option A :=
  if (i <? 0)%Z then
    (if (Z.of_nat (length l) + i <? 0)%Z then None
     else nth_error l (Z.to_nat (Z.of_nat (length l) + i)))
  else nth_error l (Z.to_nat i).

(** [range(1, n + 1)]: the ledger's index. *)
Definition index_range (n : Z) : list Z :=
  map (fun k => (Z.of_nat k + 1)%Z) (seq 0 (Z.to_nat n)).

Fixpoint mapM {A B} (f : A -> option B) (l : list A) : option (list B) :=
  match l with
  | [] => Some []
  | x :: xs => y <- f x ;; ys <- mapM f xs ;; Some (y :: ys)
  end.

(** ** Assumptions (the scenario and constants dictionaries) *)

Record VolumeAssumptions := {
  y1_bottle_target : Q;
  y2_growth_pct : Q;
  y3_onwards_growth_pct : Q
}.

Record ChannelMix := {
  tasting_room_pct : Q;
  club_pct : Q;
  wholesale_pct : Q
}.

Record ScenarioFinancing := {
  series_a_pre_money_valuation : Q;
  safe_valuation_cap : Q;
  safe_discount : Q
}.

Record Scenario := {
  name : string;
  volume : VolumeAssumptions;
  channel_mix : ChannelMix;
  initial_spend_overrun_pct : Q;
  scenario_financing : ScenarioFinancing
}.

Record Financing := {
  initial_cash_position : Q;
  safe_round_investment : Q;
  revolver_limit : Q;
  revolver_interest_rate : Q;
  founder_shares : Q;
  early_investor_shares : Q;
  series_a_investment : Q
}.

Record TaxRates := {
  federal_income_tax_rate : Q;
  oregon_state_income_tax_rate : Q
}.

Record CapexConstants := {
  initial_spend_month : Z;
  initial_spend_base : Q;
  equipment_depreciation_years : Q
}.

Record Constants := {
  forecast_months : Z;
  financing : Financing;
  tax : TaxRates;
  capex : CapexConstants
}.

(** ** [DistilleryModel.__init__] *)

Record DistilleryModel := {
  dm_scenario : Scenario;
  dm_const : Constants;
  dm_months : Z;
  dm_df_index : list Z
}.

Inductive ModelError :=
| ValidationError (msg : string)
| ZeroDivisionError.

(** The constructor stores both dictionaries, reads the horizon and creates
    the empty frame indexed by [range(1, months + 1)]; it checks nothing. *)
Definition init (scenario_data : Scenario) (constants : Constants)
  : ModelError + DistilleryModel :=
  let months := forecast_months constants in
  inr {| dm_scenario := scenario_data; dm_const := constants;
         dm_months := months; dm_df_index := index_range months |}.

(** ** [_calculate_schedule]: [Year = ceil(index / 12)] *)

Definition year (m : Z) : Z := Qceiling (inject_Z m / 12).

(** ** [_calculate_volume_and_revenue], volume part *)

Definition annual_volumes (v : VolumeAssumptions) : list Q :=
  let y1_vol := y1_bottle_target v in
  let y2_growth := y2_growth_pct v in
  let y3_plus_growth := y3_onwards_growth_pct v in
  let av := [y1_vol] in
  let av := av ++ [nth 0 av 0 * (1 + y2_growth)] in
  fold_left (fun acc _ => acc ++ [last acc 0 * (1 + y3_plus_growth)])
            (seq 3 3) av.

(** The ['Monthly Volume'] column, month by month over the index;
    [None] when [annual_volumes[y-1]] raises [IndexError]. *)
Definition monthly_volume (months : Z) (v : VolumeAssumptions)
  : option (list Q) :=
  let av := annual_volumes v in
  annual <- mapM (fun m => py_list_get av (year m - 1)) (index_range months) ;;
  Some (map (fun a => a / 12) annual).

(** ** [_calculate_capex_and_depreciation] *)

(** [df.loc[k, col] = v] on a single column: overwrite the row labelled [k],
    or enlarge the frame with a new row [k] when the label is absent. *)
Definition loc_set (idx : list Z) (col : list Q) (k : Z) (v : Q)
  : list Z * list Q :=
  if existsb (Z.eqb k) idx
  then (idx, map (fun p => if Z.eqb (fst p) k then v else snd p) (combine idx col))
  else (idx ++ [k], col ++ [v]).

Record CapexColumns := {
  cc_index : list Z;
  cc_capex : list Q;
  cc_depreciation : list Q
}.

Definition capex_amount (c : Constants) (s : Scenario) : Q :=
  initial_spend_base (capex c) * (1 + initial_spend_overrun_pct s).

Definition calculate_capex_and_depreciation (idx : list Z) (c : Constants)
  (s : Scenario) : option CapexColumns :=
  let capex_month := initial_spend_month (capex c) in
  let amt := capex_amount c s in
  let capex_col := map (fun _ => 0) idx in
  let '(idx', capex_col') := loc_set idx capex_col capex_month (- amt) in
  let depr_years := equipment_depreciation_years (capex c) in
  monthly_depr <- py_div amt (depr_years * 12) ;;
  Some {| cc_index := idx'; cc_capex := capex_col';
          cc_depreciation :=
            map (fun i => if (capex_month <=? i)%Z then - monthly_depr else 0) idx' |}.

(** ** [_build_pnl_and_cash_flow] *)

(** The three per-month columns the financing loop reads from the frame. *)
Record MonthInput := {
  mi_ebit : Q;
  mi_depreciation : Q;
  mi_capex : Q
}.

(** Everything one iteration of the loop computes for month [m]. *)
Record MonthRow := {
  mr_interest : Q;
  mr_ebt : Q;
  mr_taxes : Q;
  mr_net_income : Q;
  mr_cash_before_financing : Q;
  mr_draw_repay : Q;
  mr_revolver : Q;   (* revolver[m] *)
  mr_cash : Q        (* cash[m] *)
}.

(** The "Revolver Logic" block: draw when cash before financing is negative
    (at most the remaining headroom), otherwise repay what cash allows. *)
Definition revolver_logic (cash_before_financing limit revolver_prev : Q) : Q :=
  if Qltb cash_before_financing 0
  then py_min (- cash_before_financing) (limit - revolver_prev)
  else - py_min cash_before_financing revolver_prev.

Section CashLoop.

Variable fin : Financing.
Variable tx : TaxRates.

(** One pass of [for m in range(1, self.months + 1)], from
    [cash[m-1]] and [revolver[m-1]]. *)
Definition month_step (row : MonthInput) (cash_prev revolver_prev : Q) : MonthRow :=
  let interest := - revolver_prev * revolver_interest_rate fin / 12 in
  let ebt := mi_ebit row + interest in
  let tax_rate := federal_income_tax_rate tx + oregon_state_income_tax_rate tx in
  let taxes := if Qltb 0 ebt then - ebt * tax_rate else 0 in
  let net_income := ebt + taxes in
  let cfo := net_income - mi_depreciation row in
  let cfi := mi_capex row in
  let cash_before_financing := cash_prev + cfo + cfi in
  let draw_repay :=
    revolver_logic cash_before_financing (revolver_limit fin) revolver_prev in
  {| mr_interest := interest; mr_ebt := ebt; mr_taxes := taxes;
     mr_net_income := net_income;
     mr_cash_before_financing := cash_before_financing;
     mr_draw_repay := draw_repay;
     mr_revolver := revolver_prev + draw_repay;
     mr_cash := cash_before_financing + draw_repay |}.

Fixpoint cash_loop (rows : list MonthInput) (cash_prev revolver_prev : Q)
  : list MonthRow :=
  match rows with
  | [] => []
  | row :: rest =>
      let r := month_step row cash_prev revolver_prev in
      r :: cash_loop rest (mr_cash r) (mr_revolver r)
  end.

End CashLoop.

Fixpoint sum_Q (xs : list Q) : Q :=
  match xs with [] => 0 | x :: r => x + sum_Q r end.

(** [Series.rolling(window=w, min_periods=p).mean()]: for position [i] the
    window holds the last (at most) [w] values up to [i]; [None] is NaN. *)
Definition rolling_mean (w min_periods : nat) (xs : list Q) : list (option Q) :=
  map (fun i =>
         let win := skipn (S i - w) (firstn (S i) xs) in
         if (length win <? min_periods)%nat then None
         else Some (sum_Q win / inject_Z (Z.of_nat (length win))))
      (seq 0 (length xs)).

(** [np.where(monthly_burn < 0, -ending_cash / monthly_burn, 999)];
    a NaN comparison is false. *)
Definition runway_of (burn : option Q) (ending_cash : Q) : Q :=
  match burn with
  | Some b => if Qltb b 0 then - ending_cash / b else 999
  | None => 999
  end.

Record Ledger := {
  l_beginning_cash : list Q;
  l_ending_cash : list Q;
  l_revolver_balance : list Q;
  l_revolver_draw_repay : list Q;
  l_net_income : list Q;
  l_cfo : list Q;
  l_cfi : list Q;
  l_cff : list Q;
  l_fcf : list Q;
  l_net_cash_flow : list Q;
  l_runway : list Q
}.

Definition build_pnl_and_cash_flow (fin : Financing) (tx : TaxRates)
  (rows : list MonthInput) : Ledger :=
  let cash0 := initial_cash_position fin + safe_round_investment fin in
  let out := cash_loop fin tx rows cash0 0 in
  let cash := cash0 :: map mr_cash out in
  let revolver := 0 :: map mr_revolver out in
  let net_income := map mr_net_income out in
  let draw := map mr_draw_repay out in
  let cfo := map (fun p => fst p - mi_depreciation (snd p)) (combine net_income rows) in
  let cfi := map mi_capex rows in
  let cff := draw in
  let fcf := map (fun p => fst p + snd p) (combine cfo cfi) in
  let ncf := map (fun p => fst p + snd p) (combine fcf cff) in
  let ending := tl cash in
  let burn := rolling_mean 6 1 ncf in
  {| l_beginning_cash := removelast cash;
     l_ending_cash := ending;
     l_revolver_balance := tl revolver;
     l_revolver_draw_repay := draw;
     l_net_income := net_income;
     l_cfo := cfo; l_cfi := cfi; l_cff := cff; l_fcf := fcf;
     l_net_cash_flow := ncf;
     l_runway := map (fun p => runway_of (fst p) (snd p)) (combine burn ending) |}.

(** ** [_calculate_cap_table] *)

Record CapTable := {
  ct_series_a_pre_money_valuation : Q;
  ct_effective_safe_price : Q;
  ct_series_a_price : Q;
  ct_founder_shares : Q;
  ct_founder_pct : Q;
  ct_safe_shares : Q;
  ct_safe_pct : Q;
  ct_series_a_shares : Q;
  ct_series_a_pct : Q;
  ct_total_shares : Q;
  ct_total_pct : Q
}.

Definition pre_money_shares (fin : Financing) : Q :=
  founder_shares fin + early_investor_shares fin.

Definition calculate_cap_table (fin : Financing) (sf : ScenarioFinancing)
  : option CapTable :=
  let pre := pre_money_shares fin in
  let series_a_valuation := series_a_pre_money_valuation sf in
  series_a_price <- py_div series_a_valuation pre ;;
  price_from_cap <- py_div (safe_valuation_cap sf) pre ;;
  let price_from_discount := series_a_price * (1 - safe_discount sf) in
  let effective_safe_price := py_min price_from_cap price_from_discount in
  safe_shares <- py_div (safe_round_investment fin) effective_safe_price ;;
  series_a_shares <- py_div (series_a_investment fin) series_a_price ;;
  let total_shares := pre + safe_shares + series_a_shares in
  founder_pct <- py_div pre total_shares ;;
  safe_pct <- py_div safe_shares total_shares ;;
  series_a_pct <- py_div series_a_shares total_shares ;;
  Some {| ct_series_a_pre_money_valuation := series_a_valuation;
          ct_effective_safe_price := effective_safe_price;
          ct_series_a_price := series_a_price;
          ct_founder_shares := pre; ct_founder_pct := founder_pct;
          ct_safe_shares := safe_shares; ct_safe_pct := safe_pct;
          ct_series_a_shares := series_a_shares; ct_series_a_pct := series_a_pct;
          ct_total_shares := total_shares; ct_total_pct := 1 |}.

(** ** Concrete inputs used by the examples *)

Definition fin_example : Financing := {|
  initial_cash_position := 500000; safe_round_investment := 3000000;
  revolver_limit := 250000; revolver_interest_rate := 8 # 100;
  founder_shares := 8000000; early_investor_shares := 2000000;
  series_a_investment := 10000000 |}.

Definition sf_example : ScenarioFinancing := {|
  series_a_pre_money_valuation := 30000000;
  safe_valuation_cap := 15000000; safe_discount := 20 # 100 |}.

Definition tax_example : TaxRates := {|
  federal_income_tax_rate := 21 # 100;
  oregon_state_income_tax_rate := 76 # 1000 |}.

Definition vol_example : VolumeAssumptions := {|
  y1_bottle_target := 50000; y2_growth_pct := 25 # 100;
  y3_onwards_growth_pct := 25 # 100 |}.

Definition fin_revolver_example : Financing := {|
  initial_cash_position := 0; safe_round_investment := 0;
  revolver_limit := 250000; revolver_interest_rate := 0;
  founder_shares := 8000000; early_investor_shares := 2000000;
  series_a_investment := 10000000 |}.

Definition rows_example : list MonthInput :=
  [ {| mi_ebit := -4000000; mi_depreciation := -100; mi_capex := -100000 |};
    {| mi_ebit := 1000; mi_depreciation := -100; mi_capex := 0 |};
    {| mi_ebit := 200000; mi_depreciation := -100; mi_capex := 0 |} ].

(** ** Basic lemmas *)

Lemma Qltb_true a b : Qltb a b = true -> a < b.
Proof.
  unfold Qltb. destruct (Qle_bool b a) eqn:E; simpl; intro H; [discriminate|].
  apply Qnot_le_lt. intro Hle. apply Qle_bool_iff in Hle. congruence.
Qed.

Lemma Qltb_false a b : Qltb a b = false -> b <= a.
Proof.
  unfold Qltb. destruct (Qle_bool b a) eqn:E; simpl; intro H; [|discriminate].
  now apply Qle_bool_iff.
Qed.

Ltac qcase :=
  match goal with
  | |- context [Qltb ?a ?b] =>
      let E := fresh "E" in
      destruct (Qltb a b) eqn:E;
      [apply Qltb_true in E | apply Qltb_false in E]
  end.

Lemma py_min_Qmin a b : py_min a b == Qmin a b.
Proof.
  unfold py_min. qcase.
  - rewrite Q.min_r; [reflexivity | lra].
  - rewrite Q.min_l; [reflexivity | lra].
Qed.

Lemma py_min_le_l a b : py_min a b <= a.
Proof. unfold py_min. qcase; lra. Qed.

Lemma py_min_le_r a b : py_min a b <= b.
Proof. unfold py_min. qcase; lra. Qed.

Lemma py_min_cases a b : py_min a b = a \/ py_min a b = b.
Proof. unfold py_min. destruct (Qltb b a); auto. Qed.

Lemma revolver_logic_bounds cbf limit r :
  0 <= r <= limit -> 0 <= r + revolver_logic cbf limit r <= limit.
Proof.
  intros Hr. unfold revolver_logic. qcase.
  - pose proof (py_min_le_r (- cbf) (limit - r)).
    unfold py_min in *. qcase; lra.
  - pose proof (py_min_le_r cbf r).
    unfold py_min in *. qcase; lra.
Qed.

Lemma revolver_logic_negative_cash cbf limit r :
  cbf + revolver_logic cbf limit r < 0 -> r + revolver_logic cbf limit r == limit.
Proof.
  unfold revolver_logic, py_min. qcase; intro H.
  - qcase; lra.
  - qcase; lra.
Qed.

Lemma cash_loop_length fin tx rows c r :
  length (cash_loop fin tx rows c r) = length rows.
Proof.
  revert c r. induction rows as [|row rows IH]; intros c r; simpl; auto.
Qed.

(** Every row of the loop's output is one [month_step] from the previous
    cash and revolver balance. *)
Lemma cash_loop_step fin tx rows c r i s :
  nth_error (cash_loop fin tx rows c r) i = Some s ->
  exists row c' r', s = month_step fin tx row c' r'.
Proof.
  revert c r i. induction rows as [|row rows IH]; intros c r i H.
  - destruct i; discriminate.
  - destruct i as [|i]; simpl in H.
    + injection H as <-. eauto.
    + eapply IH. exact H.
Qed.

Lemma cash_loop_revolver_bounds fin tx rows c r :
  0 <= r <= revolver_limit fin ->
  forall x, In x (map mr_revolver (cash_loop fin tx rows c r)) ->
  0 <= x <= revolver_limit fin.
Proof.
  revert c r. induction rows as [|row rows IH]; intros c r Hr x Hx.
  - destruct Hx.
  - simpl in Hx. destruct Hx as [<- | Hx].
    + apply revolver_logic_bounds. exact Hr.
    + eapply IH; [|exact Hx]. apply revolver_logic_bounds. exact Hr.
Qed.

Lemma nth_error_removelast {A} (l : list A) (a : A) i :
  (i < length l)%nat -> nth_error (removelast (a :: l)) i = nth_error (a :: l) i.
Proof.
  revert a i. induction l as [|b l IH]; intros a i Hi; simpl in Hi; [lia|].
  destruct i as [|i]; [reflexivity|].
  change (removelast (a :: b :: l)) with (a :: removelast (b :: l)).
  simpl. apply IH. lia.
Qed.

Section LedgerColumns.

Variables (fin : Financing) (tx : TaxRates) (rows : list MonthInput).

Let cash0 := initial_cash_position fin + safe_round_investment fin.
Let out := cash_loop fin tx rows cash0 0.

Lemma ledger_ending_cash :
  l_ending_cash (build_pnl_and_cash_flow fin tx rows) = map mr_cash out.
Proof. reflexivity. Qed.

Lemma ledger_revolver_balance :
  l_revolver_balance (build_pnl_and_cash_flow fin tx rows) = map mr_revolver out.
Proof. reflexivity. Qed.

Lemma ledger_beginning_cash :
  l_beginning_cash (build_pnl_and_cash_flow fin tx rows)
  = removelast (cash0 :: map mr_cash out).
Proof. reflexivity. Qed.

End LedgerColumns.

(** ** C1: ledger continuity *)

(** Claim C1 (as stated): month 1 begins with the configured initial cash,
    [initial_cash_position].  False: the code seeds [cash[0]] with
    [initial_cash_position + safe_round_investment]; with 500,000 of initial
    cash and a 3,000,000 SAFE round, month 1 begins with 3,500,000. *)
Lemma C1_beginning_cash_counterexample :
  exists b,
    nth_error (l_beginning_cash
                 (build_pnl_and_cash_flow fin_example tax_example rows_example)) 0
    = Some b
    /\ ~ (b == initial_cash_position fin_example).
Proof.
  exists 3500000. split; [vm_compute; reflexivity|].
  vm_compute. discriminate.
Qed.

(** Claim C1 (amended): the beginning cash of month 1 is the initial cash
    position plus the SAFE round investment, and for every month m from 2
    to the horizon the beginning cash of m is the ending cash of m-1. *)
Theorem C1_ledger_cash_continuity (fin : Financing) (tx : TaxRates)
  (rows : list MonthInput) :
  let L := build_pnl_and_cash_flow fin tx rows in
  (rows <> [] ->
   nth_error (l_beginning_cash L) 0
   = Some (initial_cash_position fin + safe_round_investment fin)) /\
  (forall i, (1 <= i < length rows)%nat ->
   nth_error (l_beginning_cash L) i = nth_error (l_ending_cash L) (i - 1)).
Proof.
  intros L. subst L.
  rewrite ledger_beginning_cash, ledger_ending_cash. split.
  - intros Hne. rewrite nth_error_removelast; [reflexivity|].
    rewrite length_map, cash_loop_length. destruct rows; [congruence|]. simpl. lia.
  - intros i Hi. rewrite nth_error_removelast.
    + destruct i as [|i]; [lia|]. simpl. f_equal. lia.
    + rewrite length_map, cash_loop_length. lia.
Qed.

Lemma C1_ledger_cash_continuity_witness :
  rows_example <> [] /\ (1 <= 2 < length rows_example)%nat /\
  nth_error (l_beginning_cash
               (build_pnl_and_cash_flow fin_example tax_example rows_example)) 2%nat
  = nth_error (l_ending_cash
                 (build_pnl_and_cash_flow fin_example tax_example rows_example)) 1%nat.
Proof.
  split; [discriminate|]. split; [simpl; lia|].
  apply (proj2 (C1_ledger_cash_continuity fin_example tax_example rows_example) 2%nat).
  simpl; lia.
Defined.

(** ** C2: revolver bounds *)

(** Claim C2: with a non-negative revolver limit, every month's revolver
    balance (after the draw/repay step, starting from 0) lies in
    [[0, revolver_limit]]. *)
Theorem C2_revolver_within_limit (fin : Financing) (tx : TaxRates)
  (rows : list MonthInput) :
  0 <= revolver_limit fin ->
  forall x, In x (l_revolver_balance (build_pnl_and_cash_flow fin tx rows)) ->
  0 <= x <= revolver_limit fin.
Proof.
  intros Hlim x Hx. rewrite ledger_revolver_balance in Hx.
  eapply cash_loop_revolver_bounds; [|exact Hx]. lra.
Qed.

Lemma C2_revolver_within_limit_witness :
  0 <= revolver_limit fin_example /\
  0 <= 250000 <= revolver_limit fin_example.
Proof.
  split; [vm_compute; discriminate|].
  apply (C2_revolver_within_limit fin_example tax_example rows_example).
  - vm_compute; discriminate.
  - vm_compute. left. reflexivity.
Defined.

(** ** C3: the draw rule does not clamp ending cash *)

(** Claim C3: in a month whose cash before financing is negative, the draw
    is [min(shortfall, revolver_limit - revolver balance)] and ending cash is
    cash before financing plus the draw, negative whenever the headroom is
    smaller than the shortfall; with cash before financing -50,000 and a
    headroom of 30,000, the draw is 30,000 and ending cash -20,000. *)
Theorem C3_revolver_draw_rule (fin : Financing) (tx : TaxRates)
  (row : MonthInput) (cash_prev revolver_prev : Q) :
  let s := month_step fin tx row cash_prev revolver_prev in
  let cbf := mr_cash_before_financing s in
  let headroom := revolver_limit fin - revolver_prev in
  cbf < 0 ->
  mr_draw_repay s == Qmin (- cbf) headroom /\
  mr_cash s == cbf + mr_draw_repay s /\
  (headroom < - cbf -> mr_cash s < 0) /\
  (cbf == -50000 -> headroom == 30000 ->
   mr_draw_repay s == 30000 /\ mr_cash s == -20000).
Proof.
  intros s cbf headroom Hneg.
  assert (Hd : mr_draw_repay s = py_min (- cbf) headroom).
  { subst s cbf headroom. unfold month_step, revolver_logic. cbn.
    destruct (Qltb _ 0) eqn:E; [reflexivity|].
    apply Qltb_false in E. cbn in Hneg. lra. }
  assert (Hc : mr_cash s = cbf + mr_draw_repay s) by reflexivity.
  rewrite Hc, Hd. split; [apply py_min_Qmin|]. split; [reflexivity|].
  rewrite py_min_Qmin. split.
  - intros Hh. rewrite Q.min_r by lra. lra.
  - intros H1 H2. rewrite Q.min_r by lra. lra.
Qed.

Lemma C3_revolver_draw_rule_witness :
  let row := {| mi_ebit := -50000; mi_depreciation := 0; mi_capex := 0 |} in
  let s := month_step fin_revolver_example tax_example row 0 220000 in
  mr_cash_before_financing s < 0 /\
  mr_draw_repay s == 30000 /\ mr_cash s == -20000.
Proof.
  intros row s.
  assert (Hneg : mr_cash_before_financing s < 0) by (vm_compute; reflexivity).
  split; [exact Hneg|].
  apply (C3_revolver_draw_rule fin_revolver_example tax_example row 0 220000 Hneg);
    vm_compute; reflexivity.
Defined.

(** ** C10: negative ending cash only with an exhausted revolver *)

(** Claim C10: whenever a month's ending cash is strictly negative, that
    month's revolver balance equals the revolver limit. *)
Theorem C10_negative_cash_exhausts_revolver (fin : Financing) (tx : TaxRates)
  (rows : list MonthInput) (i : nat) (c b : Q) :
  let L := build_pnl_and_cash_flow fin tx rows in
  nth_error (l_ending_cash L) i = Some c ->
  c < 0 ->
  nth_error (l_revolver_balance L) i = Some b ->
  b == revolver_limit fin.
Proof.
  intros L Hc Hneg Hb. subst L.
  rewrite ledger_ending_cash in Hc. rewrite ledger_revolver_balance in Hb.
  rewrite nth_error_map in Hc, Hb.
  destruct (nth_error _ i) as [s|] eqn:Hs; [|discriminate].
  injection Hc as <-. injection Hb as <-.
  destruct (cash_loop_step _ _ _ _ _ _ _ Hs) as (row & c' & r' & ->).
  apply revolver_logic_negative_cash. exact Hneg.
Qed.

Lemma C10_negative_cash_exhausts_revolver_witness :
  let L := build_pnl_and_cash_flow fin_example tax_example rows_example in
  nth_error (l_ending_cash L) 0 = Some (-419880000 # 1200) /\
  -419880000 # 1200 < 0 /\
  nth_error (l_revolver_balance L) 0 = Some 250000 /\
  250000 == revolver_limit fin_example.
Proof.
  intros L.
  assert (H1 : nth_error (l_ending_cash L) 0 = Some (-419880000 # 1200))
    by (vm_compute; reflexivity).
  assert (H2 : -419880000 # 1200 < 0) by (vm_compute; reflexivity).
  assert (H3 : nth_error (l_revolver_balance L) 0 = Some 250000)
    by (vm_compute; reflexivity).
  split; [exact H1|]. split; [exact H2|]. split; [exact H3|].
  exact (C10_negative_cash_exhausts_revolver fin_example tax_example rows_example
           0 _ _ H1 H2 H3).
Defined.

(** ** Cap table *)

Lemma py_div_some a b x : py_div a b = Some x -> ~ b == 0 /\ x = a / b.
Proof.
  unfold py_div. destruct (Qeq_bool b 0) eqn:E; [discriminate|].
  intros H. injection H as <-. split; [|reflexivity].
  intro Hb. apply Qeq_bool_iff in Hb. congruence.
Qed.

Lemma py_div_ok a b : ~ b == 0 -> py_div a b = Some (a / b).
Proof.
  intros Hb. unfold py_div. destruct (Qeq_bool b 0) eqn:E; [|reflexivity].
  apply Qeq_bool_iff in E. contradiction.
Qed.

Lemma py_div_zero a b : b == 0 -> py_div a b = None.
Proof.
  intros Hb. unfold py_div. apply Qeq_bool_iff in Hb. now rewrite Hb.
Qed.

Ltac peel_div H :=
  repeat (cbn [obind] in H;
          match type of H with
          | context [py_div ?a ?b] =>
              let E := fresh "Ediv" in
              destruct (py_div a b) eqn:E; [apply py_div_some in E | discriminate]
          end).

(** The fields of any cap table the resolver returns, as the source computes
    them. *)
Lemma cap_table_fields fin sf ct :
  calculate_cap_table fin sf = Some ct ->
  let pre := pre_money_shares fin in
  let pa := series_a_pre_money_valuation sf / pre in
  let eff := py_min (safe_valuation_cap sf / pre) (pa * (1 - safe_discount sf)) in
  let ss := safe_round_investment fin / eff in
  let sa := series_a_investment fin / pa in
  let tot := pre + ss + sa in
  ~ pre == 0 /\ ~ pa == 0 /\ ~ eff == 0 /\ ~ tot == 0 /\
  ct_series_a_price ct = pa /\ ct_effective_safe_price ct = eff /\
  ct_founder_shares ct = pre /\ ct_safe_shares ct = ss /\
  ct_series_a_shares ct = sa /\ ct_total_shares ct = tot /\
  ct_founder_pct ct = pre / tot /\ ct_safe_pct ct = ss / tot /\
  ct_series_a_pct ct = sa / tot.
Proof.
  intros H. unfold calculate_cap_table in H. peel_div H.
  cbn [obind] in H. injection H as <-.
  repeat match goal with
         | E : ~ _ == 0 /\ _ = _ |- _ => destruct E as [? ->]
         end.
  cbn. repeat split; assumption.
Qed.

Lemma shares_over_total a b c : ~ a + b + c == 0 ->
  a / (a + b + c) + b / (a + b + c) + c / (a + b + c) == 1.
Proof. intros H. field. exact H. Qed.

(** Claim C4: the three ownership percentages of any cap table the resolver
    produces sum to 1; with positive pre-money shares, Series A price and
    effective SAFE price (and non-negative investment amounts) a cap table is
    produced. *)
Theorem C4_cap_table_pct_sum (fin : Financing) (sf : ScenarioFinancing) :
  (forall ct, calculate_cap_table fin sf = Some ct ->
   ct_founder_pct ct + ct_safe_pct ct + ct_series_a_pct ct == 1) /\
  (0 < pre_money_shares fin ->
   0 < series_a_pre_money_valuation sf / pre_money_shares fin ->
   0 < Qmin (safe_valuation_cap sf / pre_money_shares fin)
            (series_a_pre_money_valuation sf / pre_money_shares fin
             * (1 - safe_discount sf)) ->
   0 <= safe_round_investment fin -> 0 <= series_a_investment fin ->
   exists ct, calculate_cap_table fin sf = Some ct).
Proof.
  split.
  - intros ct H. apply cap_table_fields in H.
    destruct H as (_ & _ & _ & Htot & _ & _ & _ & _ & _ & _ & -> & -> & ->).
    apply shares_over_total. exact Htot.
  - intros Hpre Hpa Heff Hs Ha. unfold calculate_cap_table.
    rewrite py_div_ok by lra. cbn [obind].
    rewrite py_div_ok by lra. cbn [obind].
    rewrite <- py_min_Qmin in Heff.
    set (eff := py_min _ _) in *.
    rewrite py_div_ok by lra. cbn [obind].
    rewrite py_div_ok by lra. cbn [obind].
    set (pa := series_a_pre_money_valuation sf / pre_money_shares fin) in *.
    assert (0 <= safe_round_investment fin / eff)
      by (apply Qle_shift_div_l; lra).
    assert (0 <= series_a_investment fin / pa)
      by (apply Qle_shift_div_l; lra).
    rewrite !py_div_ok by lra. cbn [obind]. eexists. reflexivity.
Qed.

Lemma C4_cap_table_pct_sum_witness :
  exists ct, calculate_cap_table fin_example sf_example = Some ct /\
             ct_founder_pct ct + ct_safe_pct ct + ct_series_a_pct ct == 1.
Proof.
  destruct (proj2 (C4_cap_table_pct_sum fin_example sf_example)) as [ct Hct];
    try (vm_compute; reflexivity); try (vm_compute; discriminate).
  exists ct. split; [exact Hct|].
  exact (proj1 (C4_cap_table_pct_sum fin_example sf_example) ct Hct).
Defined.

(** Claim C5: the Series A price is the pre-money valuation over the
    pre-money share count, the effective SAFE price is the minimum of the
    cap-implied price and the discounted Series A price, and SAFE shares are
    the SAFE investment over the effective price; with SAFE 3,000,000, cap
    15,000,000, discount 20%, 10,000,000 pre-money shares and a 30,000,000
    valuation: price 3.00, effective SAFE price 1.50, 2,000,000 SAFE shares. *)
Theorem C5_safe_conversion (fin : Financing) (sf : ScenarioFinancing)
  (ct : CapTable) :
  calculate_cap_table fin sf = Some ct ->
  (ct_series_a_price ct == series_a_pre_money_valuation sf / pre_money_shares fin /\
   ct_effective_safe_price ct
   == Qmin (safe_valuation_cap sf / pre_money_shares fin)
           (ct_series_a_price ct * (1 - safe_discount sf)) /\
   ct_safe_shares ct == safe_round_investment fin / ct_effective_safe_price ct) /\
  (safe_round_investment fin == 3000000 ->
   safe_valuation_cap sf == 15000000 ->
   safe_discount sf == 20 # 100 ->
   pre_money_shares fin == 10000000 ->
   series_a_pre_money_valuation sf == 30000000 ->
   ct_series_a_price ct == 3 /\ ct_effective_safe_price ct == 3 # 2 /\
   ct_safe_shares ct == 2000000).
Proof.
  intros H. apply cap_table_fields in H.
  destruct H as (_ & _ & _ & _ & Hpa & Heff & _ & Hss & _).
  rewrite Heff, Hpa in *. rewrite Hss.
  split; [split; [reflexivity|]; split; [apply py_min_Qmin | reflexivity]|].
  intros Hs Hcap Hd Hpre Hval.
  rewrite py_min_Qmin, Hs, Hcap, Hd, Hpre, Hval.
  assert (Hm : Qmin (15000000 / 10000000) (30000000 / 10000000 * (1 - (20 # 100)))
               == 3 # 2).
  { rewrite Q.min_l; [reflexivity | apply Qle_bool_iff; vm_compute; reflexivity]. }
  rewrite Hm. split; [|split]; vm_compute; reflexivity.
Qed.

Lemma C5_safe_conversion_witness :
  exists ct, calculate_cap_table fin_example sf_example = Some ct /\
    ct_series_a_price ct == 3 /\ ct_effective_safe_price ct == 3 # 2 /\
    ct_safe_shares ct == 2000000.
Proof.
  destruct (calculate_cap_table fin_example sf_example) as [ct|] eqn:Hct;
    [|vm_compute in Hct; discriminate].
  exists ct. split; [reflexivity|].
  apply (proj2 (C5_safe_conversion fin_example sf_example ct Hct));
    vm_compute; reflexivity.
Defined.

(** ** C6: no validation at construction *)

Definition scenario_invalid : Scenario := {|
  name := "invalid";
  volume := vol_example;
  channel_mix := {| tasting_room_pct := 3 # 2; club_pct := -1 # 2;
                    wholesale_pct := 0 |};
  initial_spend_overrun_pct := 0;
  scenario_financing := sf_example |}.

Definition constants_invalid : Constants := {|
  forecast_months := 36;
  financing := {| initial_cash_position := 500000;
                  safe_round_investment := 3000000;
                  revolver_limit := 250000; revolver_interest_rate := 8 # 100;
                  founder_shares := 0; early_investor_shares := 0;
                  series_a_investment := 10000000 |};
  tax := tax_example;
  capex := {| initial_spend_month := 1; initial_spend_base := 1000000;
              equipment_depreciation_years := 0 |} |}.

(** Claim C6 (as stated): construction rejects invalid configurations.
    False: a configuration with zero share counts, mix percentages 1.5 and
    -0.5 and a zero depreciation life is accepted by the constructor. *)
Lemma C6_no_validation_counterexample :
  pre_money_shares (financing constants_invalid) == 0 /\
  tasting_room_pct (channel_mix scenario_invalid) == 3 # 2 /\
  equipment_depreciation_years (capex constants_invalid) == 0 /\
  exists m, init scenario_invalid constants_invalid = inr m.
Proof.
  split; [reflexivity|]. split; [reflexivity|]. split; [reflexivity|].
  eexists. reflexivity.
Qed.

(** Claim C6 (amended): construction never fails and checks nothing, it
    stores the configuration and the index [1..months]; a zero pre-money
    share count surfaces only when the cap table is computed, and a zero
    depreciation life only when depreciation is computed, both as a division
    by zero. *)
Theorem C6_construction_accepts_all (s : Scenario) (c : Constants) :
  init s c = inr {| dm_scenario := s; dm_const := c;
                    dm_months := forecast_months c;
                    dm_df_index := index_range (forecast_months c) |} /\
  (pre_money_shares (financing c) == 0 ->
   calculate_cap_table (financing c) (scenario_financing s) = None) /\
  (equipment_depreciation_years (capex c) == 0 ->
   forall idx, calculate_capex_and_depreciation idx c s = None).
Proof.
  split; [reflexivity|]. split.
  - intros H. unfold calculate_cap_table. rewrite py_div_zero by exact H.
    reflexivity.
  - intros H idx. unfold calculate_capex_and_depreciation.
    destruct (loc_set _ _ _ _) as [idx' col'].
    rewrite py_div_zero; [reflexivity|]. rewrite H. reflexivity.
Qed.

Lemma C6_construction_accepts_all_witness :
  pre_money_shares (financing constants_invalid) == 0 /\
  calculate_cap_table (financing constants_invalid)
    (scenario_financing scenario_invalid) = None.
Proof.
  assert (H : pre_money_shares (financing constants_invalid) == 0) by reflexivity.
  split; [exact H|].
  exact (proj1 (proj2 (C6_construction_accepts_all scenario_invalid
                         constants_invalid)) H).
Defined.

(** ** C7: annual volume recurrence and the monthly mapping *)

(** The spec's annual-volume recurrence, for every year [y >= 1]
    (year 0 is not a year; it is sent to year 1). *)
Fixpoint spec_annual_volume (v : VolumeAssumptions) (y : nat) : Q :=
  match y with
  | O => y1_bottle_target v
  | S n =>
      match n with
      | O => y1_bottle_target v
      | S O => y1_bottle_target v * (1 + y2_growth_pct v)
      | _ => spec_annual_volume v n * (1 + y3_onwards_growth_pct v)
      end
  end.

Lemma year_eq m : year m = (- (- m / 12))%Z.
Proof.
  unfold year, Qceiling, Qfloor. cbn. rewrite Z.mul_1_r. reflexivity.
Qed.

Lemma year_ge_1 m : (1 <= m)%Z -> (1 <= year m)%Z.
Proof. rewrite year_eq. intros. Z.div_mod_to_equations. lia. Qed.

Lemma year_le_5 m : (m <= 60)%Z -> (year m <= 5)%Z.
Proof. rewrite year_eq. intros. Z.div_mod_to_equations. lia. Qed.

Lemma annual_volumes_spec v k x :
  nth_error (annual_volumes v) k = Some x -> x == spec_annual_volume v (S k).
Proof.
  intros H.
  destruct k as [|[|[|[|[|k]]]]]; cbn in H;
    first [injection H as <-; reflexivity | destruct k; discriminate].
Qed.

Lemma annual_volumes_length v : length (annual_volumes v) = 5%nat.
Proof. reflexivity. Qed.

Lemma mapM_nth {A B} (f : A -> option B) l ys :
  mapM f l = Some ys ->
  length ys = length l /\
  forall i y, nth_error ys i = Some y ->
              exists a, nth_error l i = Some a /\ f a = Some y.
Proof.
  revert ys. induction l as [|a l IH]; intros ys H; cbn in H.
  - injection H as <-. split; [reflexivity|]. intros [|i] y Hy; discriminate.
  - destruct (f a) as [b|] eqn:Hf; [|discriminate]. cbn in H.
    destruct (mapM f l) as [bs|] eqn:Hl; [|discriminate]. cbn in H.
    injection H as <-. destruct (IH bs eq_refl) as [Hlen Hnth].
    split; [cbn; congruence|].
    intros [|i] y Hy; cbn in Hy |- *.
    + injection Hy as <-. eauto.
    + eauto.
Qed.

Lemma mapM_total {A B} (f : A -> option B) l :
  (forall a, In a l -> exists b, f a = Some b) -> exists ys, mapM f l = Some ys.
Proof.
  induction l as [|a l IH]; intros H; cbn; [eauto|].
  destruct (H a (or_introl eq_refl)) as [b ->]. cbn.
  destruct IH as [ys ->]; [intros; apply H; right; assumption|]. cbn. eauto.
Qed.

Lemma index_range_nth n i a :
  nth_error (index_range n) i = Some a ->
  a = (Z.of_nat i + 1)%Z /\ (i < Z.to_nat n)%nat.
Proof.
  unfold index_range. rewrite nth_error_map, nth_error_seq.
  destruct (Nat.ltb_spec i (Z.to_nat n)); cbn; [|discriminate].
  intros H'. injection H' as <-. split; [reflexivity | assumption].
Qed.

Lemma index_range_in n a : In a (index_range n) -> (1 <= a <= n)%Z.
Proof.
  unfold index_range. rewrite in_map_iff. intros (k & <- & Hk).
  apply in_seq in Hk. lia.
Qed.

Lemma annual_lookup v m x :
  (1 <= m)%Z -> py_list_get (annual_volumes v) (year m - 1) = Some x ->
  x == spec_annual_volume v (Z.to_nat (year m)).
Proof.
  intros Hm H. pose proof (year_ge_1 m Hm) as Hy.
  unfold py_list_get in H. destruct (Z.ltb_spec (year m - 1) 0); [lia|].
  apply annual_volumes_spec in H. rewrite H.
  replace (Z.to_nat (year m)) with (S (Z.to_nat (year m - 1))) by lia.
  reflexivity.
Qed.

(** Claim C7: the annual volumes follow the recurrence (year 1 the target,
    year 2 grown by the year-2 rate, later years by the year-3+ rate from the
    previous year); each month's volume is its year's annual volume over 12
    (for horizons up to 60 months the column is always produced); with a
    50,000 target and 25% growth, year 2 is 62,500 and month 13 is
    62,500 / 12. *)
Theorem C7_annual_volume_recurrence (v : VolumeAssumptions) :
  (forall k x, nth_error (annual_volumes v) k = Some x ->
               x == spec_annual_volume v (S k)) /\
  (forall months vols, monthly_volume months v = Some vols ->
   forall i x, nth_error vols i = Some x ->
   x == spec_annual_volume v (Z.to_nat (year (Z.of_nat i + 1))) / 12) /\
  (forall months, (months <= 60)%Z -> exists vols, monthly_volume months v = Some vols) /\
  (y1_bottle_target v == 50000 -> y2_growth_pct v == 25 # 100 ->
   (exists a, nth_error (annual_volumes v) 1 = Some a /\ a == 62500) /\
   (forall months vols x, monthly_volume months v = Some vols ->
    nth_error vols 12 = Some x -> x == 62500 / 12)).
Proof.
  assert (Hmap : forall months vols, monthly_volume months v = Some vols ->
          forall i x, nth_error vols i = Some x ->
          x == spec_annual_volume v (Z.to_nat (year (Z.of_nat i + 1))) / 12).
  { intros months vols H i x Hx. unfold monthly_volume in H.
    destruct (mapM _ _) as [annual|] eqn:Ha; [|discriminate]. cbn in H.
    injection H as <-. rewrite nth_error_map in Hx.
    destruct (nth_error annual i) as [a|] eqn:Hai; [|discriminate].
    injection Hx as <-.
    destruct (mapM_nth _ _ _ Ha) as [_ Hn].
    destruct (Hn i a Hai) as (m & Hm & Hget).
    destruct (index_range_nth _ _ _ Hm) as [-> _].
    rewrite (annual_lookup v (Z.of_nat i + 1) a); [reflexivity | lia | exact Hget]. }
  split; [exact (annual_volumes_spec v)|]. split; [exact Hmap|]. split.
  - intros months Hle. unfold monthly_volume.
    destruct (mapM_total (fun m => py_list_get (annual_volumes v) (year m - 1))
                (index_range months)) as [ys ->].
    + intros a Ha. apply index_range_in in Ha.
      pose proof (year_ge_1 a ltac:(lia)). pose proof (year_le_5 a ltac:(lia)).
      unfold py_list_get. destruct (Z.ltb_spec (year a - 1) 0); [lia|].
      destruct (nth_error (annual_volumes v) (Z.to_nat (year a - 1))) eqn:E; [eauto|].
      apply nth_error_None in E. rewrite annual_volumes_length in E. lia.
    + cbn. eauto.
  - intros Hy1 Hg2. split.
    + eexists. split; [reflexivity|]. cbn. rewrite Hy1, Hg2. reflexivity.
    + intros months vols x H Hx. rewrite (Hmap months vols H 12%nat x Hx).
      change (Z.to_nat (year (Z.of_nat 12 + 1))) with 2%nat. cbn.
      rewrite Hy1, Hg2. reflexivity.
Qed.

Lemma C7_annual_volume_recurrence_witness :
  exists vols, monthly_volume 36 vol_example = Some vols /\
    nth_error vols 12 = Some (6250000 # 1200) /\ 6250000 # 1200 == 62500 / 12.
Proof.
  destruct (proj1 (proj2 (proj2 (C7_annual_volume_recurrence vol_example))) 36%Z)
    as [vols Hv]; [lia|].
  exists vols. split; [exact Hv|].
  assert (H12 : nth_error vols 12 = Some (6250000 # 1200)).
  { assert (Hc : monthly_volume 36 vol_example
                 = Some (map (fun _ => 50000 # 12) (seq 0 12)
                         ++ map (fun _ => 6250000 # 1200) (seq 0 12)
                         ++ map (fun _ => 781250000 # 120000) (seq 0 12)))
      by (vm_compute; reflexivity).
    rewrite Hc in Hv. injection Hv as Hv. rewrite <- Hv. reflexivity. }
  split; [exact H12|].
  assert (Hy1 : y1_bottle_target vol_example == 50000) by reflexivity.
  assert (Hg2 : y2_growth_pct vol_example == 25 # 100) by reflexivity.
  destruct (C7_annual_volume_recurrence vol_example) as (_ & _ & _ & Hex).
  exact (proj2 (Hex Hy1 Hg2) 36%Z vols _ Hv H12).
Defined.

(** ** C8: CapEx entry and straight-line depreciation *)

Lemma nth_error_combine {A B} (l1 : list A) (l2 : list B) i :
  nth_error (combine l1 l2) i =
  match nth_error l1 i, nth_error l2 i with
  | Some a, Some b => Some (a, b)
  | _, _ => None
  end.
Proof.
  revert l2 i. induction l1 as [|a l1 IH]; intros [|b l2] [|i]; cbn; auto.
  destruct (nth_error l1 i); reflexivity.
Qed.

Lemma index_range_has n k : (1 <= k <= n)%Z -> existsb (Z.eqb k) (index_range n) = true.
Proof.
  intros Hk. apply existsb_exists. exists k. split; [|apply Z.eqb_refl].
  unfold index_range. apply in_map_iff. exists (Z.to_nat (k - 1)).
  split; [lia|]. apply in_seq. lia.
Qed.

(** Claim C8: for a spend month inside the horizon, depreciation is 0 before
    the spend month and [-capex_amount / (years * 12)] in every month from
    it to the end of the horizon; CapEx is [-capex_amount] at the spend month
    (negative for a positive amount) and 0 elsewhere; the frame keeps its
    index, and the schedule is produced whenever the life is non-zero. *)
Theorem C8_straight_line_depreciation (c : Constants) (s : Scenario) (months : Z) :
  let k := initial_spend_month (capex c) in
  let amt := capex_amount c s in
  let years := equipment_depreciation_years (capex c) in
  (1 <= k <= months)%Z ->
  (~ years == 0 ->
   exists cols, calculate_capex_and_depreciation (index_range months) c s = Some cols) /\
  (forall cols,
   calculate_capex_and_depreciation (index_range months) c s = Some cols ->
   cc_index cols = index_range months /\
   forall i m, nth_error (index_range months) i = Some m ->
   (exists d, nth_error (cc_depreciation cols) i = Some d /\
              ((m < k)%Z -> d == 0) /\ ((k <= m)%Z -> d == - amt / (years * 12))) /\
   (exists x, nth_error (cc_capex cols) i = Some x /\
              (m = k -> x == - amt /\ (0 < amt -> x < 0)) /\ (m <> k -> x == 0))).
Proof.
  intros k amt years Hk.
  unfold calculate_capex_and_depreciation, loc_set.
  fold k amt. rewrite (index_range_has months k Hk). fold years. split.
  - intros Hy. rewrite py_div_ok; [cbn; eauto|].
    intro H. apply Hy. lra.
  - intros cols H. destruct (py_div amt (years * 12)) as [md|] eqn:Hmd;
      [|discriminate].
    apply py_div_some in Hmd as [_ ->]. cbn in H. injection H as <-. cbn.
    split; [reflexivity|]. intros i m Hm. split.
    + rewrite nth_error_map, Hm. cbn. eexists. split; [reflexivity|].
      split; intros Hlt.
      * destruct (Z.leb_spec k m); [lia | reflexivity].
      * destruct (Z.leb_spec k m); [unfold Qdiv; ring | lia].
    + rewrite nth_error_map, nth_error_combine, Hm, nth_error_map, Hm. cbn.
      eexists. split; [reflexivity|]. split; intros Heq.
      * subst m. rewrite Z.eqb_refl. split; [reflexivity | intros; lra].
      * destruct (Z.eqb_spec m k); [contradiction | reflexivity].
Qed.

Definition consts_capex_example : Constants := {|
  forecast_months := 36;
  financing := fin_example;
  tax := tax_example;
  capex := {| initial_spend_month := 3; initial_spend_base := 1200000;
              equipment_depreciation_years := 10 |} |}.

Definition scenario_example : Scenario := {|
  name := "base";
  volume := vol_example;
  channel_mix := {| tasting_room_pct := 3 # 10; club_pct := 2 # 10;
                    wholesale_pct := 5 # 10 |};
  initial_spend_overrun_pct := 1 # 10;
  scenario_financing := sf_example |}.

Lemma C8_straight_line_depreciation_witness :
  (1 <= 3 <= 36)%Z /\
  exists cols,
    calculate_capex_and_depreciation (index_range 36) consts_capex_example
      scenario_example = Some cols /\
    exists d, nth_error (cc_depreciation cols) 35 = Some d /\
              d == - (1320000 # 1) / (10 * 12).
Proof.
  assert (Hk : (1 <= initial_spend_month (capex consts_capex_example) <= 36)%Z)
    by (cbn; lia).
  split; [exact Hk|].
  destruct (C8_straight_line_depreciation consts_capex_example scenario_example 36 Hk)
    as [Hex Hcols].
  destruct Hex as [cols Hc]; [vm_compute; discriminate|].
  exists cols. split; [exact Hc|].
  destruct (Hcols cols Hc) as [_ Hnth].
  destruct (proj1 (Hnth 35%nat 36%Z ltac:(reflexivity))) as (d & Hd & _ & Hge).
  exists d. split; [exact Hd|]. rewrite (Hge ltac:(cbn; lia)).
  vm_compute. reflexivity.
Defined.

(** ** C9: runway *)

(** The spec's "rolling 6-month average of net cash flow over the months
    available so far" for position [i]: the mean of positions
    [max(0, i-5) .. i]. *)
Definition spec_trailing_average (xs : list Q) (i : nat) : Q :=
  let lo := (i - 5)%nat in
  sum_Q (map (fun j => nth j xs 0) (seq lo (S i - lo)))
  / inject_Z (Z.of_nat (S i - lo)).

Lemma skipn_nth_cons {A} (xs : list A) (d : A) lo :
  (lo < length xs)%nat -> skipn lo xs = nth lo xs d :: skipn (S lo) xs.
Proof.
  revert lo. induction xs as [|x xs IH]; intros lo H; cbn in H; [lia|].
  destruct lo as [|lo]; [reflexivity|]. cbn. apply IH. lia.
Qed.

Lemma firstn_skipn_as_nth {A} (xs : list A) (d : A) n lo :
  (lo + n <= length xs)%nat ->
  firstn n (skipn lo xs) = map (fun j => nth j xs d) (seq lo n).
Proof.
  revert lo. induction n as [|n IH]; intros lo H; [reflexivity|].
  rewrite (skipn_nth_cons xs d lo) by lia. cbn [firstn seq map]. f_equal.
  apply IH. lia.
Qed.

Lemma rolling_window_nth (xs : list Q) i :
  (i < length xs)%nat ->
  nth_error (rolling_mean 6 1 xs) i =
  Some (Some (spec_trailing_average xs i)).
Proof.
  intros Hi. unfold rolling_mean.
  rewrite nth_error_map, nth_error_seq.
  destruct (Nat.ltb_spec i (length xs)); [|lia]. cbn [option_map].
  change (0 + i)%nat with i.
  replace (S i - 6)%nat with (i - 5)%nat by lia.
  replace (firstn (S i) xs) with (firstn ((i - 5) + (S i - (i - 5))) xs)
    by (f_equal; lia).
  rewrite skipn_firstn_comm.
  replace ((i - 5) + (S i - (i - 5)) - (i - 5))%nat with (S i - (i - 5))%nat by lia.
  rewrite (firstn_skipn_as_nth xs 0) by lia.
  rewrite length_map, length_seq.
  destruct (Nat.ltb_spec (S i - (i - 5)) 1); [lia|]. reflexivity.
Qed.

Section LedgerRunway.

Variables (fin : Financing) (tx : TaxRates) (rows : list MonthInput).

Lemma ledger_runway :
  l_runway (build_pnl_and_cash_flow fin tx rows)
  = map (fun p => runway_of (fst p) (snd p))
        (combine (rolling_mean 6 1 (l_net_cash_flow (build_pnl_and_cash_flow fin tx rows)))
                 (l_ending_cash (build_pnl_and_cash_flow fin tx rows))).
Proof. reflexivity. Qed.

Lemma ledger_ncf_length :
  length (l_net_cash_flow (build_pnl_and_cash_flow fin tx rows)) = length rows.
Proof.
  unfold build_pnl_and_cash_flow. cbn [l_net_cash_flow].
  repeat (rewrite ?length_map, ?length_combine, ?cash_loop_length). lia.
Qed.

Lemma ledger_ending_length :
  length (l_ending_cash (build_pnl_and_cash_flow fin tx rows)) = length rows.
Proof. rewrite ledger_ending_cash, length_map, cash_loop_length. reflexivity. Qed.

End LedgerRunway.

(** Claim C9: for every month, if the trailing average of net cash flow over
    the last (up to) 6 months is negative, runway is
    [-ending_cash / average]; otherwise it is 999. *)
Theorem C9_runway (fin : Financing) (tx : TaxRates) (rows : list MonthInput)
  (i : nat) (e : Q) :
  let L := build_pnl_and_cash_flow fin tx rows in
  let avg := spec_trailing_average (l_net_cash_flow L) i in
  nth_error (l_ending_cash L) i = Some e ->
  exists r, nth_error (l_runway L) i = Some r /\
            (avg < 0 -> r == - e / avg) /\ (0 <= avg -> r == 999).
Proof.
  intros L avg He.
  assert (Hi : (i < length rows)%nat).
  { rewrite <- (ledger_ending_length fin tx rows).
    apply nth_error_Some. fold L. rewrite He. discriminate. }
  subst L. rewrite ledger_runway, nth_error_map, nth_error_combine,
    rolling_window_nth, He by (rewrite ledger_ncf_length; exact Hi).
  cbn [option_map fst snd]. fold avg. unfold runway_of.
  eexists. split; [reflexivity|].
  destruct (Qltb avg 0) eqn:E.
  - apply Qltb_true in E. split; [reflexivity | intros; lra].
  - apply Qltb_false in E. split; [intros; lra | reflexivity].
Qed.

Lemma C9_runway_witness :
  let L := build_pnl_and_cash_flow fin_example tax_example rows_example in
  nth_error (l_ending_cash L) 1 = Some (-504672000000 # 1440000) /\
  exists r, nth_error (l_runway L) 1 = Some r /\
            r == - (-504672000000 # 1440000)
                 / spec_trailing_average (l_net_cash_flow L) 1.
Proof.
  intros L.
  assert (He : nth_error (l_ending_cash L) 1 = Some (-504672000000 # 1440000))
    by (vm_compute; reflexivity).
  split; [exact He|].
  destruct (C9_runway fin_example tax_example rows_example 1 _ He)
    as (r & Hr & Hneg & _).
  exists r. split; [exact Hr|]. apply Hneg. vm_compute. reflexivity.
Defined.

(** * The remaining steps of [DistilleryModel.run_model] *)


(** ** Pricing and revenue in [_calculate_volume_and_revenue] *)






(** ** [_calculate_opex] *)









(** ** [run_model] *)





(** * Further properties of the engine *)

(** ** Schedule *)



(** ** Pricing *)



(** ** Payroll *)







(** ** Taxes, interest and the financing step *)









(** ** Cash reconciliation in the ledger *)

Section LedgerCash.

Variables (fin : Financing) (tx : TaxRates) (rows : list MonthInput).

Let cash0 := initial_cash_position fin + safe_round_investment fin.
Let out := cash_loop fin tx rows cash0 0.
Let L := build_pnl_and_cash_flow fin tx rows.




End LedgerCash.





(** ** Depreciation and CapEx totals *)








(** ** Outcome of [run_model] *)



















(** ** Revenue and COGS by model year *)





(** ** Cap table prices and ownership *)






(** ** Revenue and COGS year over year *)







(** ** [run_model.main]: scenario selection and output file name *)




